(** * muniverse Python binding: the environment facade [Env]

    A shallow embedding of [bindings/python/muniverse/env.py] and the
    properties of its three methods ([__init__], [reset], [close]).

    The facade talks to the backend only through a [Handle] object: it
    constructs one, invokes [checked_call] on it and closes it.  The
    embedding records every interaction at that boundary in a world log,
    and lets an arbitrary backend decide how each call is answered. *)

From stdpp Require Import gmap strings list fin_maps.

Set Warnings "-register-all".
Open Scope string_scope.
Open Scope list_scope.

(** ** Python values *)

(** The values that flow through the facade: the specification, the
    container descriptor, the two hosts and the UID are opaque to it; the
    only thing it ever asks of one is [is None].  Dictionaries are finite
    maps with string keys. *)
Inductive value : Type :=
| VNone
| VBool (b : bool)
| VInt (z : Z)
| VStr (s : string)
| VList (l : list value)
| VDict (d : gmap string value).

Abbreviation dict := (gmap string value).

(** [x is None] *)
Definition is_None (v : value) : bool :=
  match v with VNone => true | _ => false end.

(** ** Exceptions and outcomes *)

Inductive exn : Type :=
| ValueError (msg : string)        (* raised by env.py itself: configuration error *)
| KeyError (key : string)          (* subscript of a dict by a missing key *)
| AttributeError (attr : string)   (* attribute access on None or a missing attribute *)
| MuniverseError (msg : string)    (* backend error, raised by Handle.checked_call *)
| TransportError (msg : string).   (* the call could not complete *)

Inductive result (A : Type) : Type :=
| Return (a : A)
| Raise (e : exn).
Arguments Return {A} a.
Arguments Raise {A} e.

(** The error taxonomy of the interface. *)
Inductive error_kind : Type :=
| Configuration | Transport | Backend | Lookup.

Definition kind_of (e : exn) : error_kind :=
  match e with
  | ValueError _ => Configuration
  | KeyError _ | AttributeError _ => Lookup
  | MuniverseError _ => Backend
  | TransportError _ => Transport
  end.

(** ** The world: handles and what is done to them *)

(** A handle is identified by a number; each interaction of the facade
    with the [Handle] class is one event of the log, oldest first. *)
Definition href := nat.

Inductive event : Type :=
| ENew (h : href)                                  (* Handle() *)
| ECall (h : href) (name : string) (args : dict)   (* h.checked_call(name, args) *)
| EClose (h : href).                               (* h.close() *)

Definition event_handle (e : event) : href :=
  match e with ENew h | ECall h _ _ | EClose h => h end.

(** The identity of the next handle to be constructed: above every
    handle the log mentions. *)
Definition fresh (w : list event) : href :=
  foldr (fun e n => Nat.max (S (event_handle e)) n) 0 w.

(** How many times [h.close()] has been invoked. *)
Fixpoint closes (h : href) (w : list event) : nat :=
  match w with
  | [] => 0
  | EClose h' :: w' => if decide (h' = h) then S (closes h w') else closes h w'
  | _ :: w' => closes h w'
  end.

(** The calls issued, in order. *)
Fixpoint calls (w : list event) : list (href * string * dict) :=
  match w with
  | [] => []
  | ECall h name args :: w' => (h, name, args) :: calls w'
  | _ :: w' => calls w'
  end.

(** How many handles have been constructed. *)
Fixpoint news (w : list event) : nat :=
  match w with
  | [] => 0
  | ENew _ :: w' => S (news w')
  | _ :: w' => news w'
  end.

(** ** The [Env] object *)

(** The two attributes of an [Env].  [handle = None] is Python's [None]
    (or the attribute not yet assigned); [uid = None] is the attribute
    not yet assigned. *)
Record Env : Type := mkEnv {
  handle : option href;
  uid : option value
}.

(** A freshly allocated object, before [__init__] runs. *)
Definition blank : Env := {| handle := None; uid := None |}.

Record state : Type := mkState {
  self : Env;
  world : list event
}.

(** ** A state and exception monad *)

Definition M (A : Type) : Type := state -> result A * state.

Definition ret {A} (a : A) : M A := fun s => (Return a, s).

Definition raise {A} (e : exn) : M A := fun s => (Raise e, s).

Definition bind {A B} (m : M A) (k : A -> M B) : M B :=
  fun s =>
    match m s with
    | (Return a, s') => k a s'
    | (Raise e, s') => (Raise e, s')
    end.

(** [try: body finally: fin].  The [finally] suite always runs; when it
    raises, its exception replaces the outcome of the body. *)
Definition try_finally {A} (body : M A) (fin : M unit) : M A :=
  fun s =>
    let '(r, s1) := body s in
    match fin s1 with
    | (Return _, s2) => (r, s2)
    | (Raise e, s2) => (Raise e, s2)
    end.

#[global] Instance M_ret : MRet M := @ret.
#[global] Instance M_bind : MBind M := fun A B k m => bind m k.

(** Attribute access on [self]. *)
Definition get_handle : M (option href) := fun s => (Return (handle (self s)), s).

Definition set_handle (h : option href) : M unit :=
  fun s => (Return tt, {| self := {| handle := h; uid := uid (self s) |}; world := world s |}).

Definition set_uid (u : value) : M unit :=
  fun s => (Return tt, {| self := {| handle := handle (self s); uid := Some u |}; world := world s |}).

(** [self.handle.m]: looking a method up on [None] raises. *)
Definition handle_method (m : string) : M href :=
  fun s =>
    match handle (self s) with
    | Some h => (Return h, s)
    | None => (Raise (AttributeError m), s)
    end.

(** [self.uid] *)
Definition get_uid : M value :=
  fun s =>
    match uid (self s) with
    | Some u => (Return u, s)
    | None => (Raise (AttributeError "uid"), s)
    end.

(** [d[k]] *)
Definition getitem (d : dict) (k : string) : M value :=
  match d !! k with
  | Some v => ret v
  | None => raise (KeyError k)
  end.

Definition emit (e : event) : M unit :=
  fun s => (Return tt, {| self := self s; world := world s ++ [e] |}).

(** ** The Handle *)

(** Modelled from the spec: the Response of the backend to one call
    ([handle.py] is not part of the sources).  A success payload is a
    mapping, a failure payload carries the backend's message, and the
    transport can fail before a response is read. *)
Inductive response : Type :=
| Success (payload : dict)
| Failure (msg : string)
| Broken (msg : string).

(** A backend answers a call knowing everything that happened before. *)
Abbreviation backend_t := (list event -> href -> string -> dict -> response).

(** Modelled from the spec: [Handle()] ([handle.py] is not part of the
    sources).  The transport is started lazily on first use, so
    constructing a handle only yields a new handle. *)
Definition Handle : M href :=
  fun s =>
    let h := fresh (world s) in
    (Return h, {| self := self s; world := world s ++ [ENew h] |}).

(** Modelled from the spec: [Handle.close] ([handle.py] is not part of
    the sources).  It releases the transport and does not fail. *)
Definition Handle_close (h : href) : M unit := emit (EClose h).

Section Facade.

Variable backend : backend_t.

(** Modelled from the spec: [Handle.checked_call] ([handle.py] is not
    part of the sources).  One synchronous call: a success payload is
    returned unmodified, a failure payload raises the backend error with
    the backend's message, a transport failure raises the transport
    error. *)
Definition checked_call (h : href) (name : string) (args : dict) : M dict :=
  fun s =>
    let s' := {| self := self s; world := world s ++ [ECall h name args] |} in
    match backend (world s) h name args with
    | Success payload => (Return payload, s')
    | Failure msg => (Raise (MuniverseError msg), s')
    | Broken msg => (Raise (TransportError msg), s')
    end.

(** env.py, lines 30-38: the verb and the arguments of the create call. *)
Definition create_call (spec container chrome_host game_host : value)
  : string * dict :=
  let call_obj : dict := {["Spec" := spec]} in
  let call_name := "NewEnv" in
  if negb (is_None container) then
    ("NewEnvContainer", <["Container" := container]> call_obj)
  else if negb (is_None chrome_host) then
    ("NewEnvChrome", <["GameHost" := game_host]> (<["Host" := chrome_host]> call_obj))
  else
    (call_name, call_obj).

(** env.py, [Env.__init__] *)
Definition __init__ (spec container chrome_host game_host : value) : M value :=
  if negb (Bool.eqb (is_None chrome_host) (is_None game_host)) then
    raise (ValueError "must set both chrome_host and game_host")
  else if negb (is_None container) && negb (is_None chrome_host) then
    raise (ValueError "cannot mix chrome_host and container options")
  else
    let '(call_name, call_obj) := create_call spec container chrome_host game_host in
    set_handle None;;
    handle ← Handle;
    try_finally
      (r ← checked_call handle call_name call_obj;
       u ← getitem r "UID";
       set_uid u;;
       set_handle (Some handle))
      (h ← get_handle;
       if h is None then Handle_close handle else ret tt);;
    ret VNone.

(** env.py, [Env.reset] *)
Definition reset : M value :=
  h ← handle_method "checked_call";
  u ← get_uid;
  checked_call h "Reset" {["UID" := u]};;
  ret VNone.

(** env.py, [Env.close] *)
Definition close : M value :=
  try_finally
    (h ← handle_method "checked_call";
     u ← get_uid;
     checked_call h "CloseEnv" {["UID" := u]};;
     ret tt)
    (h ← handle_method "close";
     Handle_close h);;
  ret VNone.

End Facade.

(** ** Lifecycle, configurations and the RPC table *)

(** The lifecycle state of the environment held in [self]: [Live] is
    having a UID and an open handle. *)
Inductive lifecycle : Type := Unborn | Live | Closed.

Definition lifecycle_of (s : state) : lifecycle :=
  match handle (self s), uid (self s) with
  | Some h, Some _ => if closes h (world s) is 0 then Live else Closed
  | _, _ => Unborn
  end.

(** A valid configuration: the two hosts come together or not at all,
    and a container is not combined with a host. *)
Definition valid_config (container chrome_host game_host : value) : bool :=
  Bool.eqb (is_None chrome_host) (is_None game_host)
  && (is_None container || is_None chrome_host).

(** The RPC surface: the required argument keys of each verb. *)
Definition rpc_args (verb : string) : option (gset string) :=
  if decide (verb = "NewEnv") then Some {["Spec"]}
  else if decide (verb = "NewEnvContainer") then Some {["Spec"; "Container"]}
  else if decide (verb = "NewEnvChrome") then Some {["Spec"; "Host"; "GameHost"]}
  else if decide (verb = "Reset") then Some {["UID"]}
  else if decide (verb = "CloseEnv") then Some {["UID"]}
  else None.

(** The exception [checked_call] raises for a response, if any. *)
Definition call_error (r : response) : option exn :=
  match r with
  | Success _ => None
  | Failure msg => Some (MuniverseError msg)
  | Broken msg => Some (TransportError msg)
  end.

(** What a method that returns [None] yields for a response of its call. *)
Definition outcome_of (r : response) : result value :=
  match call_error r with
  | None => Return VNone
  | Some e => Raise e
  end.

(** The state in which a failed construction leaves things. *)
Definition released (s : state) (name : string) (obj : dict) : state :=
  {| self := {| handle := None; uid := uid (self s) |};
     world := world s ++ [ENew (fresh (world s));
                          ECall (fresh (world s)) name obj;
                          EClose (fresh (world s))] |}.

(** The state in which a successful construction leaves things. *)
Definition created (s : state) (name : string) (obj : dict) (u : value) : state :=
  {| self := {| handle := Some (fresh (world s)); uid := Some u |};
     world := world s ++ [ENew (fresh (world s));
                          ECall (fresh (world s)) name obj] |}.

(** ** Scenarios *)

(** The backend creates every environment under the UID "42". *)
Definition backend_uid42 : backend_t :=
  fun _ _ _ _ => Success {["UID" := VStr "42"]}.

(** The backend knows no specification. *)
Definition backend_unknown_spec : backend_t :=
  fun _ _ _ _ => Failure "unknown spec".

(** The backend answers with an empty success payload. *)
Definition backend_empty : backend_t :=
  fun _ _ _ _ => Success ∅.

(** The backend process dies when asked to close an environment. *)
Definition backend_dies_on_close : backend_t :=
  fun _ _ name _ =>
    if decide (name = "CloseEnv") then Broken "process exited"
    else Success {["UID" := VStr "42"]}.

(** Nothing has happened yet and [self] is freshly allocated. *)
Definition start : state := {| self := blank; world := [] |}.

(** The state after [Env("X")] against [backend_uid42]. *)
Definition live42 : state :=
  {| self := {| handle := Some 0; uid := Some (VStr "42") |};
     world := [ENew 0; ECall 0 "NewEnv" {["Spec" := VStr "X"]}] |}.

(** ** Open handles and usage sequences *)

(** The handles constructed and not closed since, read off the log. *)
Definition track (open : gset href) (e : event) : gset href :=
  match e with
  | ENew h => open ∪ {[h]}
  | ECall _ _ _ => open
  | EClose h => open ∖ {[h]}
  end.

Definition open_handles (w : list event) : gset href := foldl track ∅ w.

(** The state a caller is left with after constructing an [Env],
    whether the constructor returned or raised. *)
Definition after_init (backend : backend_t)
    (spec container chrome_host game_host : value) (s : state) : state :=
  (__init__ backend spec container chrome_host game_host s).2.

(** The state a caller is left with after a [reset], whether it returned
    or raised. *)
Definition after_reset (backend : backend_t) (s : state) : state :=
  (reset backend s).2.

(** The state a caller is left with after a [close], whether it returned
    or raised. *)
Definition after_close (backend : backend_t) (s : state) : state :=
  (close backend s).2.

(** * Properties *)

(** ** The log *)

Lemma is_None_true (v : value) : is_None v = true ↔ v = VNone.
Proof. destruct v; simpl; split; intros H; try done. Qed.

Lemma is_None_false (v : value) : is_None v = false ↔ v ≠ VNone.
Proof. destruct v; simpl; split; intros H; try done. Qed.

Lemma closes_app (h : href) (w1 w2 : list event) :
  closes h (w1 ++ w2) = closes h w1 + closes h w2.
Proof.
  induction w1 as [|e w1 IH]; simpl; [done|].
  destruct e; try done.
  case_decide; simpl; by rewrite IH.
Qed.

Lemma calls_app (w1 w2 : list event) : calls (w1 ++ w2) = calls w1 ++ calls w2.
Proof.
  induction w1 as [|e w1 IH]; simpl; [done|].
  destruct e; simpl; by rewrite ?IH.
Qed.

Lemma news_app (w1 w2 : list event) : news (w1 ++ w2) = news w1 + news w2.
Proof.
  induction w1 as [|e w1 IH]; simpl; [done|].
  destruct e; simpl; by rewrite ?IH.
Qed.

(** Every handle of the log is below the next fresh one. *)
Lemma fresh_above (w : list event) (e : event) :
  e ∈ w → event_handle e < fresh w.
Proof.
  induction w as [|e' w IH]; intros Hin.
  - by apply elem_of_nil in Hin.
  - apply elem_of_cons in Hin as [->|Hin]; simpl; [lia|].
    specialize (IH Hin). lia.
Qed.

Lemma closes_pos_elem (h : href) (w : list event) :
  0 < closes h w → EClose h ∈ w.
Proof.
  induction w as [|e w IH]; simpl; [lia|].
  destruct e; try (intros H; apply elem_of_cons; right; by apply IH).
  case_decide as Hd.
  - subst. intros _. apply elem_of_cons. by left.
  - intros H. apply elem_of_cons. right. by apply IH.
Qed.

(** The fresh handle has never been closed. *)
Lemma fresh_not_closed (w : list event) : closes (fresh w) w = 0.
Proof.
  destruct (closes (fresh w) w) eqn:E; [done|].
  assert (EClose (fresh w) ∈ w) as Hin by (apply closes_pos_elem; lia).
  apply fresh_above in Hin. simpl in Hin. lia.
Qed.

(** ** The constructor, path by path *)

Lemma valid_config_guards (container chrome_host game_host : value) :
  valid_config container chrome_host game_host = true →
  negb (Bool.eqb (is_None chrome_host) (is_None game_host)) = false
  ∧ negb (is_None container) && negb (is_None chrome_host) = false.
Proof.
  unfold valid_config.
  destruct (is_None chrome_host), (is_None game_host), (is_None container); done.
Qed.

Lemma init_valid (backend : backend_t)
    (spec container chrome_host game_host : value) (s : state) :
  valid_config container chrome_host game_host = true →
  __init__ backend spec container chrome_host game_host s =
    let call := create_call spec container chrome_host game_host in
    match backend (world s ++ [ENew (fresh (world s))]) (fresh (world s)) call.1 call.2 with
    | Success payload =>
        match payload !! "UID" with
        | Some u => (Return VNone, created s call.1 call.2 u)
        | None => (Raise (KeyError "UID"), released s call.1 call.2)
        end
    | Failure msg => (Raise (MuniverseError msg), released s call.1 call.2)
    | Broken msg => (Raise (TransportError msg), released s call.1 call.2)
    end.
Proof.
  intros Hv. apply valid_config_guards in Hv as [Hg1 Hg2].
  unfold __init__. rewrite Hg1, Hg2.
  destruct (create_call spec container chrome_host game_host) as [name obj].
  unfold released, created, mbind, M_bind, bind, try_finally, checked_call; simpl.
  destruct (backend _ _ name obj) as [payload|msg|msg]; simpl.
  - unfold getitem. destruct (payload !! "UID") as [u|]; simpl;
      by rewrite <- !app_assoc.
  - by rewrite <- !app_assoc.
  - by rewrite <- !app_assoc.
Qed.

Lemma released_unborn (s : state) (name : string) (obj : dict) :
  lifecycle_of (released s name obj) = Unborn.
Proof. done. Qed.

Lemma released_closed_once (s : state) (name : string) (obj : dict) :
  closes (fresh (world s)) (world (released s name obj)) = 1.
Proof.
  simpl. rewrite closes_app, fresh_not_closed. simpl.
  by rewrite decide_True.
Qed.

Lemma created_open (s : state) (name : string) (obj : dict) (u : value) :
  closes (fresh (world s)) (world (created s name obj u)) = 0.
Proof. simpl. by rewrite closes_app, fresh_not_closed. Qed.

Lemma created_live (s : state) (name : string) (obj : dict) (u : value) :
  lifecycle_of (created s name obj u) = Live.
Proof.
  unfold lifecycle_of. change (handle (self (created s name obj u)))
    with (Some (fresh (world s))).
  simpl. by rewrite closes_app, fresh_not_closed.
Qed.

(** ** Configuration errors *)

(** C3: when exactly one of [chrome_host] and [game_host] is supplied,
    the constructor raises the ValueError of line 27 and leaves the state
    as it found it: no handle is constructed, no call is issued and
    nothing is closed. *)
Theorem init_rejects_single_host (backend : backend_t)
    (spec container chrome_host game_host : value) (s : state) :
  (chrome_host = VNone ∧ game_host ≠ VNone)
  ∨ (chrome_host ≠ VNone ∧ game_host = VNone) →
  __init__ backend spec container chrome_host game_host s =
    (Raise (ValueError "must set both chrome_host and game_host"), s)
  ∧ kind_of (ValueError "must set both chrome_host and game_host") = Configuration.
Proof.
  intros H. split; [|done]. unfold __init__.
  destruct H as [[-> Hg]|[Hc ->]].
  - apply is_None_false in Hg. simpl. by rewrite Hg.
  - apply is_None_false in Hc. simpl. by rewrite Hc.
Qed.

Lemma init_rejects_single_host_witness :
  ((VStr "h" = VNone ∧ VNone ≠ VNone) ∨ (VStr "h" ≠ VNone ∧ VNone = VNone))
  ∧ __init__ backend_uid42 (VStr "X") VNone (VStr "h") VNone start =
      (Raise (ValueError "must set both chrome_host and game_host"), start).
Proof.
  assert ((VStr "h" = VNone ∧ VNone ≠ VNone) ∨ (VStr "h" ≠ VNone ∧ VNone = VNone))
    as H by (right; split; [discriminate | reflexivity]).
  split; [exact H|].
  exact (proj1 (init_rejects_single_host backend_uid42 (VStr "X") VNone
                  (VStr "h") VNone start H)).
Defined.

(** C4: when both a container and a [chrome_host] are supplied, the
    constructor raises a ValueError and leaves the state as it found it:
    no handle is constructed and nothing reaches a transport. *)
Theorem init_rejects_container_with_host (backend : backend_t)
    (spec container chrome_host game_host : value) (s : state) :
  container ≠ VNone → chrome_host ≠ VNone →
  ∃ msg,
    __init__ backend spec container chrome_host game_host s =
      (Raise (ValueError msg), s)
    ∧ kind_of (ValueError msg) = Configuration.
Proof.
  intros Hc Hh. apply is_None_false in Hc, Hh.
  unfold __init__. rewrite Hc, Hh.
  destruct (is_None game_host); simpl; eauto.
Qed.

Lemma init_rejects_container_with_host_witness :
  VDict {["Image" := VStr "img"]} ≠ VNone ∧ VStr "h" ≠ VNone
  ∧ ∃ msg,
      __init__ backend_uid42 (VStr "X") (VDict {["Image" := VStr "img"]})
        (VStr "h") (VStr "g") start = (Raise (ValueError msg), start)
      ∧ kind_of (ValueError msg) = Configuration.
Proof.
  split; [discriminate|]. split; [discriminate|].
  apply (init_rejects_container_with_host backend_uid42 (VStr "X")
           (VDict {["Image" := VStr "img"]}) (VStr "h") (VStr "g") start);
    discriminate.
Defined.

(** ** Construction *)

(** C1: when the create call fails, be it with the backend's error or
    because the call could not complete, the constructor raises that very
    error, and by then the handle it constructed has been closed (once,
    after the call); [self.handle] is still [None], so the environment is
    [Unborn]. *)
Theorem init_failure_releases_handle (backend : backend_t)
    (spec container chrome_host game_host : value) (s : state) (e : exn) :
  valid_config container chrome_host game_host = true →
  call_error (backend (world s ++ [ENew (fresh (world s))]) (fresh (world s))
                (create_call spec container chrome_host game_host).1
                (create_call spec container chrome_host game_host).2) = Some e →
  ∃ s',
    __init__ backend spec container chrome_host game_host s = (Raise e, s')
    ∧ world s' = world s ++ [ENew (fresh (world s));
                             ECall (fresh (world s))
                               (create_call spec container chrome_host game_host).1
                               (create_call spec container chrome_host game_host).2;
                             EClose (fresh (world s))]
    ∧ closes (fresh (world s)) (world s') = 1
    ∧ handle (self s') = None
    ∧ lifecycle_of s' = Unborn.
Proof.
  intros Hv He. rewrite (init_valid _ _ _ _ _ _ Hv). cbv zeta.
  set (call := create_call spec container chrome_host game_host) in *.
  destruct (backend _ _ call.1 call.2) as [payload|msg|msg];
    simpl in He; simplify_eq;
    (eexists; split; [reflexivity|]);
    (split; [done|]); (split; [apply released_closed_once|]); done.
Qed.

Lemma init_failure_releases_handle_witness :
  valid_config VNone VNone VNone = true
  ∧ call_error (backend_unknown_spec [ENew 0] 0 "NewEnv" {["Spec" := VStr "X"]}) =
      Some (MuniverseError "unknown spec")
  ∧ ∃ s',
      __init__ backend_unknown_spec (VStr "X") VNone VNone VNone start =
        (Raise (MuniverseError "unknown spec"), s')
      ∧ world s' = [ENew 0; ECall 0 "NewEnv" {["Spec" := VStr "X"]}; EClose 0]
      ∧ closes 0 (world s') = 1
      ∧ handle (self s') = None
      ∧ lifecycle_of s' = Unborn.
Proof.
  split; [reflexivity|]. split; [reflexivity|].
  apply (init_failure_releases_handle backend_unknown_spec (VStr "X")
           VNone VNone VNone start (MuniverseError "unknown spec"));
    reflexivity.
Defined.

(** C6: when the backend answers the create call with a success payload
    that holds a UID, the constructor returns, [self.uid] is exactly that
    UID, [self.handle] is the handle it constructed, that handle has not
    been closed, and the environment is [Live]. *)
Theorem init_success_is_live (backend : backend_t)
    (spec container chrome_host game_host : value) (s : state)
    (payload : dict) (u : value) :
  valid_config container chrome_host game_host = true →
  backend (world s ++ [ENew (fresh (world s))]) (fresh (world s))
    (create_call spec container chrome_host game_host).1
    (create_call spec container chrome_host game_host).2 = Success payload →
  payload !! "UID" = Some u →
  ∃ s',
    __init__ backend spec container chrome_host game_host s = (Return VNone, s')
    ∧ uid (self s') = Some u
    ∧ handle (self s') = Some (fresh (world s))
    ∧ world s' = world s ++ [ENew (fresh (world s));
                             ECall (fresh (world s))
                               (create_call spec container chrome_host game_host).1
                               (create_call spec container chrome_host game_host).2]
    ∧ closes (fresh (world s)) (world s') = 0
    ∧ lifecycle_of s' = Live.
Proof.
  intros Hv Hb Hu. rewrite (init_valid _ _ _ _ _ _ Hv). cbv zeta.
  rewrite Hb, Hu. eexists. split; [reflexivity|].
  repeat split; [apply created_open | apply created_live].
Qed.

Lemma init_success_is_live_witness :
  valid_config VNone VNone VNone = true
  ∧ backend_uid42 [ENew 0] 0 "NewEnv" {["Spec" := VStr "X"]} =
      Success {["UID" := VStr "42"]}
  ∧ ({["UID" := VStr "42"]} : dict) !! "UID" = Some (VStr "42")
  ∧ ∃ s',
      __init__ backend_uid42 (VStr "X") VNone VNone VNone start = (Return VNone, s')
      ∧ uid (self s') = Some (VStr "42")
      ∧ handle (self s') = Some 0
      ∧ world s' = [ENew 0; ECall 0 "NewEnv" {["Spec" := VStr "X"]}]
      ∧ closes 0 (world s') = 0
      ∧ lifecycle_of s' = Live.
Proof.
  split; [reflexivity|]. split; [reflexivity|]. split; [reflexivity|].
  apply (init_success_is_live backend_uid42 (VStr "X") VNone VNone VNone start
           {["UID" := VStr "42"]} (VStr "42")); reflexivity.
Defined.

(** C10: when the backend answers the create call with a success payload
    that has no UID key, the constructor raises the KeyError of the
    subscript (a lookup error, not a backend error), and by then the
    handle it constructed has been closed; [self.handle] is still
    [None]. *)
Theorem init_missing_uid_releases_handle (backend : backend_t)
    (spec container chrome_host game_host : value) (s : state) (payload : dict) :
  valid_config container chrome_host game_host = true →
  backend (world s ++ [ENew (fresh (world s))]) (fresh (world s))
    (create_call spec container chrome_host game_host).1
    (create_call spec container chrome_host game_host).2 = Success payload →
  payload !! "UID" = None →
  ∃ s',
    __init__ backend spec container chrome_host game_host s =
      (Raise (KeyError "UID"), s')
    ∧ kind_of (KeyError "UID") = Lookup
    ∧ world s' = world s ++ [ENew (fresh (world s));
                             ECall (fresh (world s))
                               (create_call spec container chrome_host game_host).1
                               (create_call spec container chrome_host game_host).2;
                             EClose (fresh (world s))]
    ∧ closes (fresh (world s)) (world s') = 1
    ∧ handle (self s') = None
    ∧ lifecycle_of s' = Unborn.
Proof.
  intros Hv Hb Hu. rewrite (init_valid _ _ _ _ _ _ Hv). cbv zeta.
  rewrite Hb, Hu. eexists. split; [reflexivity|].
  repeat split. apply released_closed_once.
Qed.

Lemma init_missing_uid_releases_handle_witness :
  valid_config VNone (VStr "h") (VStr "g") = true
  ∧ backend_empty [ENew 0] 0 "NewEnvChrome"
      (<["GameHost" := VStr "g"]> (<["Host" := VStr "h"]> {["Spec" := VStr "X"]})) =
      Success ∅
  ∧ (∅ : dict) !! "UID" = None
  ∧ ∃ s',
      __init__ backend_empty (VStr "X") VNone (VStr "h") (VStr "g") start =
        (Raise (KeyError "UID"), s')
      ∧ kind_of (KeyError "UID") = Lookup
      ∧ world s' = [ENew 0;
                    ECall 0 "NewEnvChrome"
                      (<["GameHost" := VStr "g"]>
                         (<["Host" := VStr "h"]> {["Spec" := VStr "X"]}));
                    EClose 0]
      ∧ closes 0 (world s') = 1
      ∧ handle (self s') = None
      ∧ lifecycle_of s' = Unborn.
Proof.
  split; [reflexivity|]. split; [reflexivity|]. split; [reflexivity|].
  apply (init_missing_uid_releases_handle backend_empty (VStr "X") VNone
           (VStr "h") (VStr "g") start ∅); reflexivity.
Defined.

(** The create call has the argument keys the RPC table requires of its
    verb, and carries the specification under [Spec]. *)
Lemma create_call_table (spec container chrome_host game_host : value) :
  rpc_args (create_call spec container chrome_host game_host).1 =
    Some (dom (create_call spec container chrome_host game_host).2)
  ∧ (create_call spec container chrome_host game_host).2 !! "Spec" = Some spec.
Proof.
  unfold create_call.
  destruct (is_None container), (is_None chrome_host); simpl;
    rewrite ?dom_insert_L, ?dom_singleton_L; split;
    try done; try (unfold rpc_args; simpl; f_equal; set_solver).
Qed.

(** C5: for a valid configuration the constructor constructs one handle
    and issues exactly one call on it.  Without container and hosts the
    call is [NewEnv] with [{Spec}]; with a container it is
    [NewEnvContainer] with [{Spec, Container}]; with both hosts it is
    [NewEnvChrome] with [{Spec, Host, GameHost}].  The keys are those of
    the RPC table and the values are the constructor's arguments,
    unmodified. *)
Theorem init_issues_one_create_call (backend : backend_t)
    (spec container chrome_host game_host : value) (s : state) :
  valid_config container chrome_host game_host = true →
  ∃ name obj,
    calls (world (__init__ backend spec container chrome_host game_host s).2) =
      calls (world s) ++ [(fresh (world s), name, obj)]
    ∧ news (world (__init__ backend spec container chrome_host game_host s).2) =
        news (world s) + 1
    ∧ rpc_args name = Some (dom obj)
    ∧ obj !! "Spec" = Some spec
    ∧ (container = VNone → chrome_host = VNone → game_host = VNone →
         name = "NewEnv" ∧ obj = {["Spec" := spec]})
    ∧ (container ≠ VNone →
         name = "NewEnvContainer"
         ∧ obj = <["Container" := container]> {["Spec" := spec]}
         ∧ dom obj = {["Spec"; "Container"]})
    ∧ (chrome_host ≠ VNone → game_host ≠ VNone →
         name = "NewEnvChrome"
         ∧ obj = <["GameHost" := game_host]>
                   (<["Host" := chrome_host]> {["Spec" := spec]})
         ∧ dom obj = {["Spec"; "Host"; "GameHost"]}).
Proof.
  intros Hv.
  exists (create_call spec container chrome_host game_host).1,
         (create_call spec container chrome_host game_host).2.
  rewrite (init_valid _ _ _ _ _ _ Hv). cbv zeta.
  destruct (create_call_table spec container chrome_host game_host) as [Ht Hs].
  split; [|split; [|split; [exact Ht|split; [exact Hs|]]]].
  - destruct (backend _ _ _ _) as [payload|msg|msg];
      [destruct (payload !! "UID")|..]; simpl;
      rewrite calls_app; simpl; done.
  - destruct (backend _ _ _ _) as [payload|msg|msg];
      [destruct (payload !! "UID")|..]; simpl;
      rewrite news_app; simpl; done.
  - unfold valid_config in Hv. unfold create_call.
    split; [|split].
    + by intros -> -> ->.
    + intros Hc%is_None_false. rewrite Hc. simpl.
      rewrite dom_insert_L, dom_singleton_L. split_and!; [done..|set_solver].
    + intros Hh%is_None_false Hg%is_None_false.
      rewrite Hh, Hg in Hv. rewrite Hh.
      destruct (is_None container); [|done]. simpl.
      rewrite !dom_insert_L, dom_singleton_L. split_and!; [done..|set_solver].
Qed.

Lemma init_issues_one_create_call_witness :
  valid_config (VStr "c") VNone VNone = true
  ∧ ∃ name obj,
      calls (world (__init__ backend_uid42 (VStr "X") (VStr "c") VNone VNone start).2) =
        calls (world start) ++ [(fresh (world start), name, obj)]
      ∧ news (world (__init__ backend_uid42 (VStr "X") (VStr "c") VNone VNone start).2) =
          news (world start) + 1
      ∧ rpc_args name = Some (dom obj)
      ∧ obj !! "Spec" = Some (VStr "X")
      ∧ (VStr "c" = VNone → VNone = VNone → VNone = VNone →
           name = "NewEnv" ∧ obj = {["Spec" := VStr "X"]})
      ∧ (VStr "c" ≠ VNone →
           name = "NewEnvContainer"
           ∧ obj = <["Container" := VStr "c"]> {["Spec" := VStr "X"]}
           ∧ dom obj = {["Spec"; "Container"]})
      ∧ (VNone ≠ VNone → VNone ≠ VNone →
           name = "NewEnvChrome"
           ∧ obj = <["GameHost" := VNone]>
                     (<["Host" := VNone]> {["Spec" := VStr "X"]})
           ∧ dom obj = {["Spec"; "Host"; "GameHost"]}).
Proof.
  split; [reflexivity|].
  apply (init_issues_one_create_call backend_uid42 (VStr "X") (VStr "c")
           VNone VNone start).
  reflexivity.
Defined.

(** ** Reset *)

(** What one [reset] does to an environment that has a handle and a
    UID. *)
Lemma reset_step (backend : backend_t) (s : state) (h : href) (u : value) :
  handle (self s) = Some h → uid (self s) = Some u →
  reset backend s =
    (outcome_of (backend (world s) h "Reset" {["UID" := u]}),
     {| self := self s; world := world s ++ [ECall h "Reset" {["UID" := u]}] |}).
Proof.
  intros Hh Hu.
  unfold reset, mbind, M_bind, bind, handle_method, get_uid, checked_call,
    outcome_of.
  rewrite Hh, Hu. by destruct (backend _ _ _ _).
Qed.

(** The UID [reset] sends is the one the create call returned. *)
Lemma reset_after_init (backend : backend_t)
    (spec container chrome_host game_host : value) (s s' : state) :
  __init__ backend spec container chrome_host game_host s = (Return VNone, s') →
  ∃ payload u,
    backend (world s ++ [ENew (fresh (world s))]) (fresh (world s))
      (create_call spec container chrome_host game_host).1
      (create_call spec container chrome_host game_host).2 = Success payload
    ∧ payload !! "UID" = Some u
    ∧ calls (world (reset backend s').2) =
        calls (world s') ++ [(fresh (world s), "Reset", {["UID" := u]})].
Proof.
  intros Hi.
  destruct (valid_config container chrome_host game_host) eqn:Hv.
  - rewrite (init_valid _ _ _ _ _ _ Hv) in Hi. cbv zeta in Hi.
    destruct (backend _ _ _ _) as [payload|msg|msg]; [|done..].
    destruct (payload !! "UID") as [u|] eqn:Hu; [|done].
    exists payload, u. simplify_eq.
    rewrite (reset_step backend _ (fresh (world s)) u); [|done..].
    simpl. by rewrite !calls_app.
  - unfold __init__, valid_config in *.
    destruct (is_None chrome_host), (is_None game_host), (is_None container);
      simpl in *; done.
Qed.

(** C7: on a [Live] environment [reset] issues exactly one call, [Reset]
    with the arguments [{UID: self.uid}], on the environment's handle.
    It discards what the call returns and returns [None]; an error of the
    call is raised unchanged.  The environment itself is not modified. *)
Theorem reset_issues_one_call (backend : backend_t) (s : state) :
  lifecycle_of s = Live →
  ∃ h u,
    handle (self s) = Some h ∧ uid (self s) = Some u
    ∧ (reset backend s).2 =
        {| self := self s; world := world s ++ [ECall h "Reset" {["UID" := u]}] |}
    ∧ rpc_args "Reset" = Some (dom ({["UID" := u]} : dict))
    ∧ (reset backend s).1 = outcome_of (backend (world s) h "Reset" {["UID" := u]}).
Proof.
  unfold lifecycle_of. intros Hl.
  destruct (handle (self s)) as [h|] eqn:Hh; [|done].
  destruct (uid (self s)) as [u|] eqn:Hu; [|done].
  exists h, u. rewrite (reset_step backend s h u Hh Hu).
  rewrite dom_singleton_L. done.
Qed.

Lemma reset_issues_one_call_witness :
  lifecycle_of live42 = Live
  ∧ ∃ h u,
      handle (self live42) = Some h ∧ uid (self live42) = Some u
      ∧ (reset backend_empty live42).2 =
          {| self := self live42;
             world := world live42 ++ [ECall h "Reset" {["UID" := u]}] |}
      ∧ rpc_args "Reset" = Some (dom ({["UID" := u]} : dict))
      ∧ (reset backend_empty live42).1 =
          outcome_of (backend_empty (world live42) h "Reset" {["UID" := u]}).
Proof.
  split; [reflexivity|].
  apply (reset_issues_one_call backend_empty live42). reflexivity.
Defined.

(** C7, the result: [reset] has no [return].  Against a backend that
    answers [Reset] with a non-empty success payload, [reset] on a [Live]
    environment returns [None], which is not what the call returned. *)
Lemma reset_does_not_return_the_payload :
  lifecycle_of live42 = Live
  ∧ backend_uid42 (world live42) 0 "Reset" {["UID" := VStr "42"]} =
      Success {["UID" := VStr "42"]}
  ∧ (reset backend_uid42 live42).1 = Return VNone
  ∧ (reset backend_uid42 live42).1 ≠ Return (VDict {["UID" := VStr "42"]}).
Proof. split_and!; [reflexivity..|discriminate]. Qed.

(** ** Close *)

(** What one [close] does to an environment that has a handle and a UID,
    whatever its lifecycle state. *)
Lemma close_step (backend : backend_t) (s : state) (h : href) (u : value) :
  handle (self s) = Some h → uid (self s) = Some u →
  close backend s =
    (outcome_of (backend (world s) h "CloseEnv" {["UID" := u]}),
     {| self := self s;
        world := world s ++ [ECall h "CloseEnv" {["UID" := u]}; EClose h] |}).
Proof.
  intros Hh Hu.
  unfold close, mbind, M_bind, bind, try_finally, handle_method, get_uid,
    checked_call, Handle_close, emit, outcome_of.
  rewrite Hh, Hu.
  destruct (backend _ _ _ _); simpl; rewrite Hh; simpl;
    by rewrite <- app_assoc.
Qed.

Lemma live_fields (s : state) :
  lifecycle_of s = Live →
  ∃ h u, handle (self s) = Some h ∧ uid (self s) = Some u
         ∧ closes h (world s) = 0.
Proof.
  unfold lifecycle_of. intros Hl.
  destruct (handle (self s)) as [h|]; [|done].
  destruct (uid (self s)) as [u|]; [|done].
  exists h, u. by destruct (closes h (world s)).
Qed.

(** C2: on a [Live] environment, [close] issues the [CloseEnv] call and
    then closes the handle, whether the call returned or raised: the
    events it adds are the call followed by one [close] of the handle,
    which has then been closed exactly once, and the outcome of [close]
    is that of the call. *)
Theorem close_releases_handle_once (backend : backend_t) (s : state) :
  lifecycle_of s = Live →
  ∃ h u,
    handle (self s) = Some h ∧ uid (self s) = Some u
    ∧ world (close backend s).2 =
        world s ++ [ECall h "CloseEnv" {["UID" := u]}; EClose h]
    ∧ closes h [ECall h "CloseEnv" {["UID" := u]}; EClose h] = 1
    ∧ closes h (world (close backend s).2) = 1
    ∧ (close backend s).1 =
        outcome_of (backend (world s) h "CloseEnv" {["UID" := u]})
    ∧ lifecycle_of (close backend s).2 = Closed.
Proof.
  intros (h & u & Hh & Hu & Hc)%live_fields.
  exists h, u. rewrite (close_step backend s h u Hh Hu). simpl.
  assert (closes h (world s ++ [ECall h "CloseEnv" {["UID" := u]}; EClose h]) = 1)
    as Hone by (rewrite closes_app, Hc; simpl; by rewrite decide_True).
  split_and!; try done.
  - by rewrite decide_True.
  - unfold lifecycle_of. simpl. by rewrite Hh, Hu, Hone.
Qed.

Lemma close_releases_handle_once_witness :
  lifecycle_of live42 = Live
  ∧ ∃ h u,
      handle (self live42) = Some h ∧ uid (self live42) = Some u
      ∧ world (close backend_dies_on_close live42).2 =
          world live42 ++ [ECall h "CloseEnv" {["UID" := u]}; EClose h]
      ∧ closes h [ECall h "CloseEnv" {["UID" := u]}; EClose h] = 1
      ∧ closes h (world (close backend_dies_on_close live42).2) = 1
      ∧ (close backend_dies_on_close live42).1 =
          outcome_of (backend_dies_on_close (world live42) h "CloseEnv"
                        {["UID" := u]})
      ∧ lifecycle_of (close backend_dies_on_close live42).2 = Closed.
Proof.
  split; [reflexivity|].
  apply (close_releases_handle_once backend_dies_on_close live42). reflexivity.
Defined.

(** C8: [close] consults no lifecycle state.  Calling it again on the
    environment a first [close] left behind, which is [Closed], issues a
    second [CloseEnv] call and a second [close] of the same handle; the
    outcome of the second [close] is again that of its call. *)
Theorem close_twice_is_not_guarded (backend : backend_t) (s : state) :
  lifecycle_of s = Live →
  ∃ h u,
    handle (self s) = Some h ∧ uid (self s) = Some u
    ∧ lifecycle_of (close backend s).2 = Closed
    ∧ world (close backend (close backend s).2).2 =
        world s ++ [ECall h "CloseEnv" {["UID" := u]}; EClose h;
                    ECall h "CloseEnv" {["UID" := u]}; EClose h]
    ∧ closes h (world (close backend (close backend s).2).2) = 2
    ∧ (close backend (close backend s).2).1 =
        outcome_of (backend (world (close backend s).2) h "CloseEnv"
                      {["UID" := u]}).
Proof.
  intros (h & u & Hh & Hu & Hc)%live_fields.
  exists h, u. rewrite (close_step backend s h u Hh Hu). simpl.
  rewrite (close_step backend (mkState (self s) _) h u Hh Hu). simpl.
  rewrite <- !app_assoc. simpl.
  split_and!; try done.
  - unfold lifecycle_of. simpl. rewrite Hh, Hu, closes_app, Hc. simpl.
    by rewrite decide_True.
  - rewrite closes_app, Hc. simpl. by rewrite !decide_True.
Qed.

Lemma close_twice_is_not_guarded_witness :
  lifecycle_of live42 = Live
  ∧ ∃ h u,
      handle (self live42) = Some h ∧ uid (self live42) = Some u
      ∧ lifecycle_of (close backend_empty live42).2 = Closed
      ∧ world (close backend_empty (close backend_empty live42).2).2 =
          world live42 ++ [ECall h "CloseEnv" {["UID" := u]}; EClose h;
                           ECall h "CloseEnv" {["UID" := u]}; EClose h]
      ∧ closes h (world (close backend_empty (close backend_empty live42).2).2) = 2
      ∧ (close backend_empty (close backend_empty live42).2).1 =
          outcome_of (backend_empty (world (close backend_empty live42).2) h
                        "CloseEnv" {["UID" := u]}).
Proof.
  split; [reflexivity|].
  apply (close_twice_is_not_guarded backend_empty live42). reflexivity.
Defined.

(** * Further properties of the facade *)

(** ** Open handles *)

Lemma fresh_app (w1 w2 : list event) :
  fresh (w1 ++ w2) = Nat.max (fresh w1) (fresh w2).
Proof.
  induction w1 as [|e w1 IH]; simpl; [done|].
  unfold fresh in *. simpl. rewrite IH. lia.
Qed.

Lemma open_handles_snoc (w : list event) (e : event) :
  open_handles (w ++ [e]) = track (open_handles w) e.
Proof. unfold open_handles. by rewrite foldl_snoc. Qed.

Lemma open_handles_app (w1 w2 : list event) :
  open_handles (w1 ++ w2) = foldl track (open_handles w1) w2.
Proof. unfold open_handles. by rewrite foldl_app. Qed.

(** An open handle is one the log mentions. *)
Lemma open_handles_below (w : list event) (h : href) :
  h ∈ open_handles w → h < fresh w.
Proof.
  revert h. induction w as [|e w IH] using rev_ind; intros h.
  - unfold open_handles. simpl. set_solver.
  - rewrite open_handles_snoc, fresh_app. unfold fresh at 2. simpl.
    destruct e as [h'|h' name args|h']; simpl; intros Hin.
    + apply elem_of_union in Hin as [Hin|Hin%elem_of_singleton].
      * specialize (IH _ Hin). lia.
      * subst. lia.
    + specialize (IH _ Hin). lia.
    + apply elem_of_difference in Hin as [Hin _].
      specialize (IH _ Hin). lia.
Qed.

Lemma open_then_closed (X : gset href) (h : href) :
  h ∉ X → (X ∪ {[h]}) ∖ {[h]} = X.
Proof.
  intros Hn. apply set_eq. intros x.
  rewrite elem_of_difference, elem_of_union, !elem_of_singleton. split.
  - intros [[Hx| ->] Hne]; [done|by destruct Hne].
  - intros Hx. split; [by left|]. intros ->. by apply Hn.
Qed.

Lemma fresh_not_open (w : list event) : fresh w ∉ open_handles w.
Proof. intros Hin%open_handles_below. lia. Qed.

(** A failed construction leaves the open handles as they were. *)
Lemma released_open (s : state) (name : string) (obj : dict) :
  open_handles (world (released s name obj)) = open_handles (world s).
Proof.
  simpl. rewrite open_handles_app. simpl.
  apply open_then_closed, fresh_not_open.
Qed.

(** ** The constructor on an invalid configuration *)

Lemma init_invalid (backend : backend_t)
    (spec container chrome_host game_host : value) (s : state) :
  valid_config container chrome_host game_host = false →
  __init__ backend spec container chrome_host game_host s =
    (Raise (ValueError
              (if Bool.eqb (is_None chrome_host) (is_None game_host)
               then "cannot mix chrome_host and container options"
               else "must set both chrome_host and game_host")), s).
Proof.
  unfold valid_config, __init__.
  destruct (is_None chrome_host), (is_None game_host), (is_None container);
    simpl; done.
Qed.

(** X1: the constructor never leaks a handle.  Whatever the arguments
    and the backend, when it raises the set of open handles is what it
    was before; when it returns, that set has grown by exactly the handle
    now held in [self.handle], which was not open before. *)
Theorem init_keeps_or_releases (backend : backend_t)
    (spec container chrome_host game_host : value) (s : state) :
  match (__init__ backend spec container chrome_host game_host s).1 with
  | Return _ =>
      handle (self (__init__ backend spec container chrome_host game_host s).2) =
        Some (fresh (world s))
      ∧ (fresh (world s) ∉ open_handles (world s))
      ∧ open_handles (world (__init__ backend spec container chrome_host game_host s).2) =
          open_handles (world s) ∪ {[fresh (world s)]}
  | Raise _ =>
      open_handles (world (__init__ backend spec container chrome_host game_host s).2) =
        open_handles (world s)
  end.
Proof.
  pose proof (fresh_not_open (world s)) as Hf.
  destruct (valid_config container chrome_host game_host) eqn:Hv.
  - rewrite (init_valid _ _ _ _ _ _ Hv). cbv zeta.
    destruct (backend _ _ _ _) as [payload|msg|msg];
      [destruct (payload !! "UID")|..]; simpl fst; simpl snd;
      try apply released_open.
    split_and!; [done..|]. simpl. by rewrite open_handles_app.
  - by rewrite (init_invalid _ _ _ _ _ _ Hv).
Qed.

(** X2: on a freshly allocated object the constructor either returns
    and leaves a [Live] environment, or raises and leaves an [Unborn]
    one whose [handle] is [None]: there is no third outcome, and a handle
    is never stored without a UID. *)
Theorem init_live_or_unborn (backend : backend_t)
    (spec container chrome_host game_host : value) (s : state) :
  handle (self s) = None →
  ((__init__ backend spec container chrome_host game_host s).1 = Return VNone
   ∧ lifecycle_of (__init__ backend spec container chrome_host game_host s).2 = Live)
  ∨ (∃ e,
       (__init__ backend spec container chrome_host game_host s).1 = Raise e
       ∧ handle (self (__init__ backend spec container chrome_host game_host s).2) = None
       ∧ lifecycle_of (__init__ backend spec container chrome_host game_host s).2 = Unborn).
Proof.
  intros Hh.
  destruct (valid_config container chrome_host game_host) eqn:Hv.
  - rewrite (init_valid _ _ _ _ _ _ Hv). cbv zeta.
    destruct (backend _ _ _ _) as [payload|msg|msg];
      [destruct (payload !! "UID")|..]; simpl fst; simpl snd;
      try (right; eexists; split_and!; done).
    left. split; [done|apply created_live].
  - rewrite (init_invalid _ _ _ _ _ _ Hv). right. eexists.
    split_and!; [done..|]. unfold lifecycle_of. simpl. by rewrite Hh.
Qed.

Lemma init_live_or_unborn_witness :
  handle (self start) = None
  ∧ (((__init__ backend_unknown_spec (VStr "X") VNone VNone VNone start).1 =
        Return VNone
      ∧ lifecycle_of
          (__init__ backend_unknown_spec (VStr "X") VNone VNone VNone start).2 = Live)
     ∨ (∃ e,
          (__init__ backend_unknown_spec (VStr "X") VNone VNone VNone start).1 =
            Raise e
          ∧ handle (self (__init__ backend_unknown_spec (VStr "X") VNone VNone
                            VNone start).2) = None
          ∧ lifecycle_of
              (__init__ backend_unknown_spec (VStr "X") VNone VNone VNone start).2 =
              Unborn)).
Proof.
  split; [reflexivity|].
  apply (init_live_or_unborn backend_unknown_spec (VStr "X") VNone VNone VNone
           start).
  reflexivity.
Defined.

(** X3: the constructor only ever touches the handle it constructs.
    The log it leaves is the log it found followed by at most three
    events, every one of them on the fresh handle; the history and the
    handles of other environments are not touched. *)
Theorem init_touches_own_handle_only (backend : backend_t)
    (spec container chrome_host game_host : value) (s : state) :
  ∃ delta,
    world (__init__ backend spec container chrome_host game_host s).2 =
      world s ++ delta
    ∧ Forall (fun e => event_handle e = fresh (world s)) delta
    ∧ (List.length delta ≤ 3)%nat
    ∧ ∀ h, h ≠ fresh (world s) →
        closes h (world (__init__ backend spec container chrome_host game_host s).2) =
          closes h (world s).
Proof.
  destruct (valid_config container chrome_host game_host) eqn:Hv.
  - rewrite (init_valid _ _ _ _ _ _ Hv). cbv zeta.
    destruct (backend _ _ _ _) as [payload|msg|msg];
      [destruct (payload !! "UID")|..]; simpl;
      (eexists; split; [reflexivity|]);
      (split; [repeat constructor|]); (split; [simpl; lia|]);
      intros h Hne; rewrite closes_app; simpl;
      rewrite ?decide_False by done; lia.
  - rewrite (init_invalid _ _ _ _ _ _ Hv). exists []. simpl.
    rewrite app_nil_r. split_and!; [done|constructor|lia|done].
Qed.

(** X4: the constructor raises a ValueError exactly when the
    configuration is invalid.  A failure of the create call, or a payload
    without UID, is never reported as a configuration error. *)
Theorem init_value_error_iff_invalid (backend : backend_t)
    (spec container chrome_host game_host : value) (s : state) :
  (∃ msg s',
     __init__ backend spec container chrome_host game_host s =
       (Raise (ValueError msg), s'))
  ↔ valid_config container chrome_host game_host = false.
Proof.
  split.
  - intros (msg & s' & Hi).
    destruct (valid_config container chrome_host game_host) eqn:Hv; [|done].
    rewrite (init_valid _ _ _ _ _ _ Hv) in Hi. cbv zeta in Hi.
    destruct (backend _ _ _ _) as [payload|m|m];
      [destruct (payload !! "UID")|..]; done.
  - intros Hv. rewrite (init_invalid _ _ _ _ _ _ Hv). eauto.
Qed.

(** ** The create call determines the configuration *)

(** What the arguments of the create call hold under each optional key. *)
Lemma create_call_lookups (spec container chrome_host game_host : value) :
  valid_config container chrome_host game_host = true →
  (create_call spec container chrome_host game_host).2 !! "Container" =
    (if is_None container then None else Some container)
  ∧ (create_call spec container chrome_host game_host).2 !! "Host" =
      (if is_None chrome_host then None else Some chrome_host)
  ∧ (create_call spec container chrome_host game_host).2 !! "GameHost" =
      (if is_None game_host then None else Some game_host).
Proof.
  unfold valid_config, create_call.
  destruct (is_None container) eqn:Hc, (is_None chrome_host) eqn:Hh,
    (is_None game_host) eqn:Hg; simpl; try done; intros _;
    split_and!; by simplify_map_eq.
Qed.

Lemma present_inj (v1 v2 : value) :
  (if is_None v1 then None else Some v1) = (if is_None v2 then None else Some v2) →
  v1 = v2.
Proof.
  destruct (is_None v1) eqn:H1, (is_None v2) eqn:H2; intros H; simplify_eq.
  - apply is_None_true in H1, H2. congruence.
  - done.
Qed.

(** X5: two valid configurations that lead to the same create
    arguments are the same configuration: the mapping sent to the
    backend loses nothing of what the caller passed. *)
Theorem create_call_injective
    (spec1 container1 chrome_host1 game_host1 : value)
    (spec2 container2 chrome_host2 game_host2 : value) :
  valid_config container1 chrome_host1 game_host1 = true →
  valid_config container2 chrome_host2 game_host2 = true →
  (create_call spec1 container1 chrome_host1 game_host1).2 =
    (create_call spec2 container2 chrome_host2 game_host2).2 →
  spec1 = spec2 ∧ container1 = container2
  ∧ chrome_host1 = chrome_host2 ∧ game_host1 = game_host2.
Proof.
  intros Hv1 Hv2 Heq.
  destruct (create_call_table spec1 container1 chrome_host1 game_host1) as [_ Hs1].
  destruct (create_call_table spec2 container2 chrome_host2 game_host2) as [_ Hs2].
  destruct (create_call_lookups spec1 _ _ _ Hv1) as (Hc1 & Hh1 & Hg1).
  destruct (create_call_lookups spec2 _ _ _ Hv2) as (Hc2 & Hh2 & Hg2).
  rewrite Heq in Hs1, Hc1, Hh1, Hg1.
  split_and!.
  - congruence.
  - apply present_inj. congruence.
  - apply present_inj. congruence.
  - apply present_inj. congruence.
Qed.

Lemma create_call_injective_witness :
  valid_config (VStr "c") VNone VNone = true
  ∧ valid_config (VStr "c") VNone VNone = true
  ∧ (create_call (VStr "X") (VStr "c") VNone VNone).2 =
      (create_call (VStr "X") (VStr "c") VNone VNone).2
  ∧ VStr "X" = VStr "X" ∧ VStr "c" = VStr "c" ∧ VNone = VNone ∧ VNone = VNone.
Proof.
  split; [reflexivity|]. split; [reflexivity|]. split; [reflexivity|].
  apply (create_call_injective (VStr "X") (VStr "c") VNone VNone
           (VStr "X") (VStr "c") VNone VNone); reflexivity.
Defined.

(** ** Reset, repeatedly and out of state *)

(** The state after [n] calls of [reset], each of which may have
    returned or raised. *)
Lemma after_resets (backend : backend_t) (s : state) (h : href) (u : value)
    (n : nat) :
  handle (self s) = Some h → uid (self s) = Some u →
  Nat.iter n (after_reset backend) s =
    {| self := self s;
       world := world s ++ replicate n (ECall h "Reset" {["UID" := u]}) |}.
Proof.
  intros Hh Hu. induction n as [|n IH]; simpl.
  - rewrite app_nil_r. by destruct s.
  - rewrite IH. unfold after_reset.
    rewrite (reset_step backend (mkState (self s) _) h u Hh Hu). simpl.
    rewrite <- app_assoc. by rewrite <- replicate_S_end.
Qed.

Lemma closes_replicate_call (h h' : href) (name : string) (args : dict) (n : nat) :
  closes h' (replicate n (ECall h name args)) = 0.
Proof. induction n; simpl; done. Qed.

Lemma calls_replicate_call (h : href) (name : string) (args : dict) (n : nat) :
  calls (replicate n (ECall h name args)) = replicate n (h, name, args).
Proof. induction n as [|n IH]; simpl; [done|by rewrite IH]. Qed.

Lemma open_handles_calls (w : list event) (h : href) (name : string)
    (args : dict) (n : nat) :
  open_handles (w ++ replicate n (ECall h name args)) = open_handles w.
Proof.
  rewrite open_handles_app. generalize (open_handles w).
  induction n as [|n IH]; intros X; simpl; [done|apply IH].
Qed.

(** X6: [reset] can be repeated.  After [n] calls of [reset] on an
    environment with a handle and a UID, whatever each call answered, the
    object is unchanged, the log has grown by exactly [n] Reset calls on
    its handle with its UID, no handle was closed or constructed, and the
    lifecycle state is what it was. *)
Theorem reset_repeated (backend : backend_t) (s : state) (h : href) (u : value)
    (n : nat) :
  handle (self s) = Some h → uid (self s) = Some u →
  self (Nat.iter n (after_reset backend) s) = self s
  ∧ calls (world (Nat.iter n (after_reset backend) s)) =
      calls (world s) ++ replicate n (h, "Reset", {["UID" := u]})
  ∧ (∀ h', closes h' (world (Nat.iter n (after_reset backend) s)) =
           closes h' (world s))
  ∧ open_handles (world (Nat.iter n (after_reset backend) s)) =
      open_handles (world s)
  ∧ lifecycle_of (Nat.iter n (after_reset backend) s) = lifecycle_of s.
Proof.
  intros Hh Hu. rewrite (after_resets backend s h u n Hh Hu). simpl.
  assert (∀ h', closes h' (world s ++ replicate n (ECall h "Reset" {["UID" := u]})) =
                closes h' (world s)) as Hc.
  { intros h'. rewrite closes_app, closes_replicate_call. lia. }
  split_and!; try done.
  - by rewrite calls_app, calls_replicate_call.
  - apply open_handles_calls.
  - unfold lifecycle_of. simpl. by rewrite Hh, Hu, Hc.
Qed.

Lemma reset_repeated_witness :
  handle (self live42) = Some 0 ∧ uid (self live42) = Some (VStr "42")
  ∧ self (Nat.iter 3 (after_reset backend_unknown_spec) live42) = self live42
  ∧ calls (world (Nat.iter 3 (after_reset backend_unknown_spec) live42)) =
      calls (world live42) ++ replicate 3 (0, "Reset", {["UID" := VStr "42"]})
  ∧ (∀ h', closes h' (world (Nat.iter 3 (after_reset backend_unknown_spec) live42)) =
           closes h' (world live42))
  ∧ open_handles (world (Nat.iter 3 (after_reset backend_unknown_spec) live42)) =
      open_handles (world live42)
  ∧ lifecycle_of (Nat.iter 3 (after_reset backend_unknown_spec) live42) =
      lifecycle_of live42.
Proof.
  split; [reflexivity|]. split; [reflexivity|].
  apply (reset_repeated backend_unknown_spec live42 0 (VStr "42") 3);
    reflexivity.
Defined.

Lemma closed_fields (s : state) :
  lifecycle_of s = Closed →
  ∃ h u, handle (self s) = Some h ∧ uid (self s) = Some u
         ∧ 0 < closes h (world s).
Proof.
  unfold lifecycle_of. intros Hl.
  destruct (handle (self s)) as [h|]; [|done].
  destruct (uid (self s)) as [u|]; [|done].
  exists h, u. destruct (closes h (world s)); [done|]. split_and!; [done..|lia].
Qed.

(** X7: [reset] consults no lifecycle state either.  On a [Closed]
    environment it still issues the Reset call, on the handle that has
    been closed; whether the caller sees an error is up to what answers
    that call, and the environment stays [Closed]. *)
Theorem reset_on_closed_is_not_guarded (backend : backend_t) (s : state) :
  lifecycle_of s = Closed →
  ∃ h u,
    handle (self s) = Some h ∧ uid (self s) = Some u
    ∧ 0 < closes h (world s)
    ∧ world (reset backend s).2 =
        world s ++ [ECall h "Reset" {["UID" := u]}]
    ∧ (reset backend s).1 = outcome_of (backend (world s) h "Reset" {["UID" := u]})
    ∧ lifecycle_of (reset backend s).2 = Closed.
Proof.
  intros (h & u & Hh & Hu & Hc)%closed_fields.
  exists h, u. rewrite (reset_step backend s h u Hh Hu). simpl.
  split_and!; try done.
  unfold lifecycle_of. simpl. rewrite Hh, Hu, closes_app. simpl.
  destruct (closes h (world s)); [lia|done].
Qed.

Lemma reset_on_closed_is_not_guarded_witness :
  lifecycle_of (after_close backend_empty live42) = Closed
  ∧ ∃ h u,
      handle (self (after_close backend_empty live42)) = Some h
      ∧ uid (self (after_close backend_empty live42)) = Some u
      ∧ 0 < closes h (world (after_close backend_empty live42))
      ∧ world (reset backend_empty (after_close backend_empty live42)).2 =
          world (after_close backend_empty live42)
            ++ [ECall h "Reset" {["UID" := u]}]
      ∧ (reset backend_empty (after_close backend_empty live42)).1 =
          outcome_of (backend_empty (world (after_close backend_empty live42)) h
                        "Reset" {["UID" := u]})
      ∧ lifecycle_of (reset backend_empty (after_close backend_empty live42)).2 =
          Closed.
Proof.
  split; [reflexivity|].
  apply (reset_on_closed_is_not_guarded backend_empty
           (after_close backend_empty live42)).
  reflexivity.
Defined.

(** ** Close and the other handles *)

(** X8: [close] closes the environment's own handle and nothing else.
    The object is unchanged, the close count of every other handle is
    what it was, and the set of open handles loses exactly this one. *)
Theorem close_touches_own_handle_only (backend : backend_t) (s : state)
    (h : href) (u : value) :
  handle (self s) = Some h → uid (self s) = Some u →
  self (close backend s).2 = self s
  ∧ (∀ h', h' ≠ h →
       closes h' (world (close backend s).2) = closes h' (world s))
  ∧ open_handles (world (close backend s).2) = open_handles (world s) ∖ {[h]}.
Proof.
  intros Hh Hu. rewrite (close_step backend s h u Hh Hu). simpl.
  split_and!; [done| |].
  - intros h' Hne. rewrite closes_app. simpl.
    rewrite decide_False by done. lia.
  - by rewrite open_handles_app.
Qed.

Lemma close_touches_own_handle_only_witness :
  handle (self live42) = Some 0 ∧ uid (self live42) = Some (VStr "42")
  ∧ self (close backend_dies_on_close live42).2 = self live42
  ∧ (∀ h', h' ≠ 0 →
       closes h' (world (close backend_dies_on_close live42).2) =
         closes h' (world live42))
  ∧ open_handles (world (close backend_dies_on_close live42).2) =
      open_handles (world live42) ∖ {[0]}.
Proof.
  split; [reflexivity|]. split; [reflexivity|].
  apply (close_touches_own_handle_only backend_dies_on_close live42 0
           (VStr "42")); reflexivity.
Defined.

(** ** Methods on an environment without a handle *)



(** ** A whole session *)

(** X10: a successful construction, [n] resets and one [close] make up
    a session that leaves nothing behind.  Whatever the resets and the
    CloseEnv call answered, the calls issued are the create call, [n]
    Reset calls and one CloseEnv call, all on the one handle and all but
    the first tagged with the UID the create call returned; the handle
    has been closed exactly once, the set of open handles is what it was
    before the session, and the environment is [Closed]. *)
Theorem session_leaves_nothing_open (backend : backend_t)
    (spec container chrome_host game_host : value) (s : state)
    (payload : dict) (u : value) (n : nat) :
  valid_config container chrome_host game_host = true →
  backend (world s ++ [ENew (fresh (world s))]) (fresh (world s))
    (create_call spec container chrome_host game_host).1
    (create_call spec container chrome_host game_host).2 = Success payload →
  payload !! "UID" = Some u →
  calls (world (after_close backend
                  (Nat.iter n (after_reset backend)
                     (after_init backend spec container chrome_host game_host s)))) =
    calls (world s)
      ++ (fresh (world s),
          (create_call spec container chrome_host game_host).1,
          (create_call spec container chrome_host game_host).2)
         :: replicate n (fresh (world s), "Reset", {["UID" := u]})
      ++ [(fresh (world s), "CloseEnv", {["UID" := u]})]
  ∧ closes (fresh (world s))
      (world (after_close backend
                (Nat.iter n (after_reset backend)
                   (after_init backend spec container chrome_host game_host s)))) = 1
  ∧ open_handles
      (world (after_close backend
                (Nat.iter n (after_reset backend)
                   (after_init backend spec container chrome_host game_host s)))) =
      open_handles (world s)
  ∧ lifecycle_of
      (after_close backend
         (Nat.iter n (after_reset backend)
            (after_init backend spec container chrome_host game_host s))) = Closed.
Proof.
  intros Hv Hb Hu. unfold after_init.
  rewrite (init_valid _ _ _ _ _ _ Hv). cbv zeta. rewrite Hb, Hu. simpl snd.
  set (h := fresh (world s)).
  set (name := (create_call spec container chrome_host game_host).1).
  set (obj := (create_call spec container chrome_host game_host).2).
  rewrite (after_resets backend (created s name obj u) h u n); [|done..].
  unfold after_close.
  rewrite (close_step backend (mkState (self (created s name obj u)) _) h u);
    [|done..].
  simpl.
  assert (closes h
            ((world s ++ [ENew h; ECall h name obj])
               ++ replicate n (ECall h "Reset" {["UID" := u]})) = 0) as Hc.
  { rewrite !closes_app, closes_replicate_call.
    unfold h. rewrite fresh_not_closed. done. }
  assert (closes h
            (((world s ++ [ENew h; ECall h name obj])
                ++ replicate n (ECall h "Reset" {["UID" := u]}))
               ++ [ECall h "CloseEnv" {["UID" := u]}; EClose h]) = 1) as Hone.
  { rewrite closes_app, Hc. simpl. by rewrite decide_True. }
  split_and!.
  - rewrite !calls_app, calls_replicate_call. simpl.
    by rewrite <- !app_assoc.
  - exact Hone.
  - rewrite open_handles_app, open_handles_calls, open_handles_app. simpl.
    apply open_then_closed, fresh_not_open.
  - unfold lifecycle_of. simpl. fold h. by rewrite Hone.
Qed.

Lemma session_leaves_nothing_open_witness :
  valid_config VNone VNone VNone = true
  ∧ backend_dies_on_close [ENew 0] 0 "NewEnv" {["Spec" := VStr "X"]} =
      Success {["UID" := VStr "42"]}
  ∧ ({["UID" := VStr "42"]} : dict) !! "UID" = Some (VStr "42")
  ∧ calls (world (after_close backend_dies_on_close
                    (Nat.iter 2 (after_reset backend_dies_on_close)
                       (after_init backend_dies_on_close (VStr "X") VNone VNone
                          VNone start)))) =
      calls (world start)
        ++ (0, "NewEnv", {["Spec" := VStr "X"]})
           :: replicate 2 (0, "Reset", {["UID" := VStr "42"]})
        ++ [(0, "CloseEnv", {["UID" := VStr "42"]})]
  ∧ closes 0
      (world (after_close backend_dies_on_close
                (Nat.iter 2 (after_reset backend_dies_on_close)
                   (after_init backend_dies_on_close (VStr "X") VNone VNone
                      VNone start)))) = 1
  ∧ open_handles
      (world (after_close backend_dies_on_close
                (Nat.iter 2 (after_reset backend_dies_on_close)
                   (after_init backend_dies_on_close (VStr "X") VNone VNone
                      VNone start)))) = open_handles (world start)
  ∧ lifecycle_of
      (after_close backend_dies_on_close
         (Nat.iter 2 (after_reset backend_dies_on_close)
            (after_init backend_dies_on_close (VStr "X") VNone VNone VNone
               start))) = Closed.
Proof.
  split; [reflexivity|]. split; [reflexivity|]. split; [reflexivity|].
  apply (session_leaves_nothing_open backend_dies_on_close (VStr "X") VNone
           VNone VNone start {["UID" := VStr "42"]} (VStr "42") 2);
    reflexivity.
Defined.

(** ** Failing constructions, repeatedly *)

(** X11: failing constructions do not pile up.  Against a backend that
    answers no call with success, [n] constructions in a row leave the
    set of open handles as it was, although for a valid configuration
    each of them constructed a handle of its own. *)
Theorem failing_creates_leave_nothing_open (backend : backend_t)
    (spec container chrome_host game_host : value) (s : state) (n : nat) :
  (∀ w h name obj, call_error (backend w h name obj) ≠ None) →
  open_handles
    (world (Nat.iter n (after_init backend spec container chrome_host game_host) s)) =
    open_handles (world s)
  ∧ news
      (world (Nat.iter n (after_init backend spec container chrome_host game_host) s)) =
      news (world s)
        + (if valid_config container chrome_host game_host then n else 0).
Proof.
  intros Hfail. induction n as [|n [IHo IHn]]; simpl.
  - split; [done|]. destruct (valid_config _ _ _); lia.
  - set (sn := Nat.iter n (after_init backend spec container chrome_host game_host) s)
      in *.
    unfold after_init at 1 2.
    destruct (valid_config container chrome_host game_host) eqn:Hv.
    + rewrite (init_valid _ _ _ _ _ _ Hv). cbv zeta.
      pose proof (Hfail (world sn ++ [ENew (fresh (world sn))]) (fresh (world sn))
                    (create_call spec container chrome_host game_host).1
                    (create_call spec container chrome_host game_host).2) as Hf.
      destruct (backend _ _ _ _) as [payload|msg|msg]; [done|..];
        simpl snd; rewrite released_open; (split; [done|]);
        simpl; rewrite news_app, IHn; simpl; lia.
    + rewrite (init_invalid _ _ _ _ _ _ Hv). simpl. split; [done|lia].
Qed.

Lemma failing_creates_leave_nothing_open_witness :
  (∀ w h name obj, call_error (backend_unknown_spec w h name obj) ≠ None)
  ∧ open_handles
      (world (Nat.iter 3 (after_init backend_unknown_spec (VStr "X") VNone VNone
                            VNone) start)) = open_handles (world start)
  ∧ news
      (world (Nat.iter 3 (after_init backend_unknown_spec (VStr "X") VNone VNone
                            VNone) start)) =
      news (world start) + (if valid_config VNone VNone VNone then 3 else 0).
Proof.
  assert (∀ w h name obj, call_error (backend_unknown_spec w h name obj) ≠ None)
    as H by (intros w h name obj; discriminate).
  split; [exact H|].
  exact (failing_creates_leave_nothing_open backend_unknown_spec (VStr "X")
           VNone VNone VNone start 3 H).
Defined.
